(** * Heat-of-reaction evaluators of [Hrxn_methods.py]

    A shallow embedding of the two functions of the module, [anl0_hrxn]
    and [sum_Hrxn], and the properties of them that the specification
    states.

    - A Python [float] is an IEEE-754 binary64 number: Rocq's primitive
      [float], with the kernel's operations (round to nearest even).
    - The energy table [delE] is a [dict] from [str] to [float]: a
      [gmap string float].
    - [delE[k]] raises [KeyError(k)] when [k] is absent, and the exception
      leaves the function at once: the code is written in an error monad.
      The monad also threads the table, so that "the table is left as it
      was" is a statement about the code and not about the notation. *)

From Stdlib Require Import Floats.
From stdpp Require Import gmap strings list fin_maps.

Set Warnings "-inexact-float".

Local Open Scope string_scope.

(** ** Python values and effects *)

(** The only exception the two functions raise themselves. *)
Inductive exn : Type :=
  | KeyError (k : string).

Inductive outcome (A : Type) : Type :=
  | Returns (a : A)
  | Raises (e : exn).
Arguments Returns {A} a.
Arguments Raises {A} e.

(** The energy table. *)
Abbreviation dict := (gmap string float).

(** A Python computation over the table [delE]: it is given the table,
    returns or raises, and hands the table back. *)
Definition py (A : Type) : Type := dict → outcome A * dict.

#[export] Instance py_ret : MRet py := λ A a d, (Returns a, d).

#[export] Instance py_bind : MBind py := λ A B k m d,
  match m d with
  | (Returns a, d') => k a d'
  | (Raises e, d') => (Raises e, d')
  end.

(** [delE[k]] *)
Definition getitem (k : string) : py float := λ d,
  match d !! k with
  | Some v => (Returns v, d)
  | None => (Raises (KeyError k), d)
  end.

(** [k in delE.keys()]: [keys()] is a view of the table, read when [in]
    is evaluated. *)
Definition contains (k : string) : py bool := λ d,
  (Returns (bool_decide (is_Some (d !! k))), d).

(** Truth value of a [str]: only the empty string is false. *)
Definition truthy (s : string) : bool := negb (String.eqb s "").

(** Truth value of [s and rest], [s] a [str] literal: [rest] is only
    evaluated when [s] is true. *)
Definition str_and (s : string) (rest : py bool) : py bool :=
  if truthy s then rest else mret false.

(** What the caller sees of a call. *)
Definition result {A} (r : outcome A * dict) : outcome A := r.1.
Definition table_after {A} (r : outcome A * dict) : dict := r.2.

(** ** Numbers *)

Module Num.
Local Open Scope float_scope.

(** [x ** y] on floats is C's [pow]. The module evaluates it at three
    arguments only; the table gives the correctly rounded binary64
    results there (3.0**3.7 = 58.25707055931402,
    4.0**3.7 = 168.89701257893051, 5.0**3.7 = 385.6461642000061). *)
Definition pow (x y : float) : float :=
  if y =? 3.7 then
    if x =? 3.0 then 0x1.d20e7b0268253p+5
    else if x =? 4.0 then 0x1.51cb453b9536ep+7
    else if x =? 5.0 then 0x1.81a56b045adf5p+8
    else nan
  else nan.

(** [sum(l)] for a list of floats: the additions run left to right from
    the start value [0], an [int] that becomes [0.0] when it meets a
    float; [sum([]) * x] is [0 * x], the float [0.0 * x]. (CPython 3.12
    and later compensate the rounding errors of the additions; the
    statements below have the same [sum] on both sides.) *)
Definition py_sum (l : list float) : float := foldl PrimFloat.add 0.0 l.
End Num.

(** ** The constants of [anl0_hrxn] *)

Section constants.
Local Open Scope float_scope.
Import Num.

Definition hartree_to_kJpermole : float := 2625.499748.
Definition cbs_tz_qz : float := pow 3.0 3.7 / (pow 4.0 3.7 - pow 3.0 3.7).
Definition cbs_tz_qz_low : float := - cbs_tz_qz.
Definition cbs_tz_qz_high : float := 1.0 + cbs_tz_qz.
Definition cbs_qz_5z : float := pow 4.0 3.7 / (pow 5.0 3.7 - pow 4.0 3.7).
Definition cbs_qz_5z_low : float := - cbs_qz_5z.
Definition cbs_qz_5z_high : float := 1.0 + cbs_qz_5z.
End constants.

(** ** [anl0_hrxn] *)

Section anl0.
Local Open Scope float_scope.

(** [cbs = ...; Hrxn = (cbs + delE['zpe']) * hartree_to_kJpermole] *)
Definition base_block : py float :=
  avqz ← getitem "avqz";
  av5z ← getitem "av5z";
  let cbs := cbs_qz_5z_low * avqz + cbs_qz_5z_high * av5z in
  zpe ← getitem "zpe";
  mret ((cbs + zpe) * hartree_to_kJpermole).

(** [if 'core_0_tz' and 'core_X_tz' and 'core_0_qz' and 'core_X_qz' in keys: ...] *)
Definition core_block (Hrxn : float) : py float :=
  c ← str_and "core_0_tz" (str_and "core_X_tz" (str_and "core_0_qz"
        (contains "core_X_qz")));
  if c : bool then
    core_0_tz ← getitem "core_0_tz";
    core_X_tz ← getitem "core_X_tz";
    core_0_qz ← getitem "core_0_qz";
    core_X_qz ← getitem "core_X_qz";
    let core := cbs_tz_qz_low * (core_0_tz - core_X_tz)
                + cbs_tz_qz_high * (core_0_qz - core_X_qz) in
    if abs (core * hartree_to_kJpermole) <? 4.0
    then mret (Hrxn + core * hartree_to_kJpermole)
    else mret Hrxn
  else mret Hrxn.

(** [if 'ccQ' and 'ccT' in keys: ...] *)
Definition cc_block (Hrxn : float) : py float :=
  c ← str_and "ccQ" (contains "ccT");
  if c : bool then
    ccQ ← getitem "ccQ";
    ccT ← getitem "ccT";
    let ccTQ := ccQ - ccT in
    if abs (ccTQ * hartree_to_kJpermole) <? 4.0
    then mret (Hrxn + ccTQ * hartree_to_kJpermole)
    else mret Hrxn
  else mret Hrxn.

(** [if 'ci_DK' and 'ci_NREL' in keys: ...] *)
Definition ci_block (Hrxn : float) : py float :=
  c ← str_and "ci_DK" (contains "ci_NREL");
  if c : bool then
    ci_DK ← getitem "ci_DK";
    ci_NREL ← getitem "ci_NREL";
    let ci := ci_DK - ci_NREL in
    if abs (ci * hartree_to_kJpermole) <? 4.0
    then mret (Hrxn + ci * hartree_to_kJpermole)
    else mret Hrxn
  else mret Hrxn.

(** [if 'zpe_anharm' and 'zpe_harm' in keys: ...] *)
Definition anharm_block (Hrxn : float) : py float :=
  c ← str_and "zpe_anharm" (contains "zpe_harm");
  if c : bool then
    zpe_anharm ← getitem "zpe_anharm";
    zpe_harm ← getitem "zpe_harm";
    let anharm := zpe_anharm - zpe_harm in
    if abs anharm <? 4.0
    then mret (Hrxn + anharm)
    else mret Hrxn
  else mret Hrxn.

(** The function: the base value, then the four blocks in the order of
    the source, each updating [Hrxn]; [return Hrxn]. The ignored
    [*args] are left out. *)
Definition anl0_hrxn : py float :=
  Hrxn ← base_block;
  Hrxn ← core_block Hrxn;
  Hrxn ← cc_block Hrxn;
  Hrxn ← ci_block Hrxn;
  Hrxn ← anharm_block Hrxn;
  mret Hrxn.
End anl0.

(** ** [sum_Hrxn] *)

Section sum.
Local Open Scope float_scope.

(** [[delE[k] for k in args]]: the look-ups run in the order of [args],
    the first absent key raises. *)
Fixpoint getitems (args : list string) : py (list float) :=
  match args with
  | [] => mret []
  | k :: args' =>
      v ← getitem k;
      vs ← getitems args';
      mret (v :: vs)
  end.

Definition sum_Hrxn (args : list string) : py float :=
  vs ← getitems args;
  mret (Num.py_sum vs * hartree_to_kJpermole).
End sum.

(** ** The correction groups *)

Inductive group : Type := Core | CC | CI | Anharm.

#[export] Instance group_eq_dec : EqDecision group.
Proof. solve_decision. Defined.

(** The keys the docstring lists for each correction, in its order. *)
Definition group_keys (g : group) : list string :=
  match g with
  | Core => ["core_0_tz"; "core_X_tz"; "core_0_qz"; "core_X_qz"]
  | CC => ["ccQ"; "ccT"]
  | CI => ["ci_DK"; "ci_NREL"]
  | Anharm => ["zpe_anharm"; "zpe_harm"]
  end.

Definition last_key (g : group) : string :=
  match g with
  | Core => "core_X_qz"
  | CC => "ccT"
  | CI => "ci_NREL"
  | Anharm => "zpe_harm"
  end.

Definition required_keys : list string := ["avqz"; "av5z"; "zpe"].

(** The [if] block of a group. *)
Definition block (g : group) : float → py float :=
  match g with
  | Core => core_block
  | CC => cc_block
  | CI => ci_block
  | Anharm => anharm_block
  end.

(** Blocks run one after the other, each on the [Hrxn] the one before
    left. *)
Fixpoint run_blocks (gs : list group) (Hrxn : float) : py float :=
  match gs with
  | [] => mret Hrxn
  | g :: gs' => Hrxn' ← block g Hrxn; run_blocks gs' Hrxn'
  end.

(** The groups whose blocks stand before and after the block of [g]. *)
Definition earlier (g : group) : list group :=
  match g with
  | Core => []
  | CC => [Core]
  | CI => [Core; CC]
  | Anharm => [Core; CC; CI]
  end.

Definition later (g : group) : list group :=
  match g with
  | Core => [CC; CI; Anharm]
  | CC => [CI; Anharm]
  | CI => [Anharm]
  | Anharm => []
  end.

(** The value a block compares with 4.0 and adds to [Hrxn]: the
    correction in kJ/mol, when all the keys of the group are there. *)
Definition correction_kJ (g : group) (d : dict) : option float :=
  match g with
  | Core =>
      core_0_tz ← d !! "core_0_tz";
      core_X_tz ← d !! "core_X_tz";
      core_0_qz ← d !! "core_0_qz";
      core_X_qz ← d !! "core_X_qz";
      Some ((cbs_tz_qz_low * (core_0_tz - core_X_tz)
             + cbs_tz_qz_high * (core_0_qz - core_X_qz)) * hartree_to_kJpermole)%float
  | CC =>
      ccQ ← d !! "ccQ";
      ccT ← d !! "ccT";
      Some ((ccQ - ccT) * hartree_to_kJpermole)%float
  | CI =>
      ci_DK ← d !! "ci_DK";
      ci_NREL ← d !! "ci_NREL";
      Some ((ci_DK - ci_NREL) * hartree_to_kJpermole)%float
  | Anharm =>
      zpe_anharm ← d !! "zpe_anharm";
      zpe_harm ← d !! "zpe_harm";
      Some (zpe_anharm - zpe_harm)%float
  end.

(** The table with the keys of a group taken out. *)
Definition without_group (g : group) (d : dict) : dict :=
  foldr delete d (group_keys g).

(** Sequencing of outcomes: what [;] does to a returned value or a raised
    exception. *)
Definition and_then {A B} (r : outcome A) (f : A → outcome B) : outcome B :=
  match r with
  | Returns a => f a
  | Raises e => Raises e
  end.

(** A computation that hands the table back as it got it, and whose
    [KeyError] names a key that is not in the table. *)
Definition reader {A} (m : py A) : Prop :=
  ∀ d, table_after (m d) = d ∧
       ∀ k, result (m d) = Raises (KeyError k) → d !! k = None.

(** ** Auxiliary definitions *)

(** The first key of [ks] that is not in the table. *)
Definition first_absent (ks : list string) (d : dict) : option string :=
  List.find (λ k, negb (bool_decide (is_Some (d !! k)))) ks.

(** The amount the block of [g] adds to [Hrxn], if it adds one. *)
Definition added (g : group) (d : dict) : option float :=
  if bool_decide (is_Some (d !! last_key g)) then
    c ← correction_kJ g d;
    if (abs c <? 4.0)%float then Some c else None
  else None.

(** Two tables with the same entries at the keys of [ks]. *)
Definition agree_on (ks : list string) (d d' : dict) : Prop :=
  ∀ k, k ∈ ks → d !! k = d' !! k.

(** [(cbs + zpe) * hartree_to_kJpermole], when the three keys are there. *)
Definition base_value (d : dict) : option float :=
  avqz ← d !! "avqz";
  av5z ← d !! "av5z";
  zpe ← d !! "zpe";
  Some ((cbs_qz_5z_low * avqz + cbs_qz_5z_high * av5z + zpe)
        * hartree_to_kJpermole)%float.

(** [Hrxn] when the block of [g] is reached, and the rest of the function
    from there. *)
Definition before_group (g : group) : py float :=
  base_block ≫= run_blocks (earlier g).

Definition after_group (g : group) (Hrxn : float) : py float :=
  run_blocks (later g) Hrxn.

(** The keys [anl0_hrxn] names, in the order of its docstring. *)
Definition anl0_keys : list string :=
  ["avqz"; "av5z"; "zpe";
   "core_0_tz"; "core_X_tz"; "core_0_qz"; "core_X_qz";
   "ccQ"; "ccT"; "ci_DK"; "ci_NREL"; "zpe_anharm"; "zpe_harm"].

(** The block of [g] can run to its end: when the last key of the group
    is in the table, so are all the keys of the group. *)
Definition readable (g : group) (d : dict) : Prop :=
  is_Some (d !! last_key g) → ∀ k, k ∈ group_keys g → is_Some (d !! k).

(** [Hrxn] after the block of [g], when the block returns. *)
Definition add_correction (d : dict) (Hrxn : float) (g : group) : float :=
  match added g d with
  | Some c => (Hrxn + c)%float
  | None => Hrxn
  end.

(** ** Tables used in the examples *)

(** The scenario of the specification. *)
Definition water : dict :=
  {[ "avqz" := (-76.05)%float; "av5z" := (-76.06)%float; "zpe" := 0.02%float ]}.

(** The table of the specification that lacks ['av5z']. *)
Definition missing_av5z : dict :=
  {[ "avqz" := (-1.0)%float; "zpe" := 0.01%float ]}.

(** The table of the scenario of [sum_Hrxn]. *)
Definition coupled_cluster : dict :=
  {[ "e_cc" := (-76.3)%float; "zpe" := 0.018%float ]}.

(** The table of the scenario with a complete coupled-cluster group. *)
Definition water_cc : dict :=
  <[ "ccQ" := 0.001%float ]> (<[ "ccT" := 0.0005%float ]> water).

(** The table on which the order of the additions shows: the
    coupled-cluster group and the anharmonicity group both add their
    correction. *)
Definition two_corrections : dict :=
  {[ "avqz" := 0.0%float; "av5z" := 0.0%float; "zpe" := 0.001%float;
     "ccQ" := 0.0005%float; "ccT" := 0.0%float;
     "zpe_anharm" := 0.3%float; "zpe_harm" := 0.0%float ]}.

(** The table of the scenario with a core-valence group. *)
Definition water_core : dict :=
  <[ "core_0_tz" := 0.0011%float ]> (<[ "core_X_tz" := 0.0008%float ]>
  (<[ "core_0_qz" := 0.0012%float ]> (<[ "core_X_qz" := 0.0007%float ]> water))).

(** The table of the scenario with zero-point energies of 62.3 and
    61.9 kJ/mol: their difference, 0.3999999999999986, is added as it
    is; multiplied by K it would be above the threshold. *)
Definition water_anharm : dict :=
  <[ "zpe_anharm" := 62.3%float ]> (<[ "zpe_harm" := 61.9%float ]> water).

(** The scenario table with two infinite coupled-cluster energies: their
    difference is a NaN. *)
Definition water_cc_infinite : dict :=
  <[ "ccQ" := infinity ]> (<[ "ccT" := infinity ]> water).

(** ** Facts on binary64 numbers *)

Section float_facts.
Local Open Scope float_scope.

Lemma SFcompare_antisym (x y : SpecFloat.spec_float) :
  SpecFloat.SFcompare y x = option_map CompOpp (SpecFloat.SFcompare x y).
Proof.
  destruct x as [sx|sx| |sx mx ex], y as [sy|sy| |sy my ey]; simpl;
    try reflexivity;
    try (destruct sx; reflexivity);
    try (destruct sy; reflexivity);
    try (destruct sx, sy; reflexivity).
  destruct sx, sy; simpl; try reflexivity;
    rewrite (Z.compare_antisym ex ey);
    destruct (ex ?= ey)%Z; simpl; try reflexivity;
    pose proof (Pos.compare_cont_antisym mx my Eq) as H; simpl in H;
    rewrite <- H; destruct (Pos.compare_cont Eq mx my); reflexivity.
Qed.

(** [y <= x] excludes [x < y]. *)
Lemma float_leb_not_ltb (x y : float) :
  (y <=? x) = true → (x <? y) = false.
Proof.
  rewrite leb_spec, ltb_spec. unfold SpecFloat.SFleb, SpecFloat.SFltb.
  rewrite (SFcompare_antisym (Prim2SF x) (Prim2SF y)).
  destruct (SpecFloat.SFcompare (Prim2SF x) (Prim2SF y)) as [[]|]; simpl; congruence.
Qed.

(** The product of two floats does not depend on their order. *)
Lemma float_mul_comm (x y : float) : x * y = y * x.
Proof.
  apply Prim2SF_inj. rewrite !mul_spec. unfold SF64mul.
  destruct (Prim2SF x) as [sx|sx| |sx mx ex], (Prim2SF y) as [sy|sy| |sy my ey];
    simpl; try reflexivity; try (destruct sx, sy; reflexivity).
  rewrite (Pos.mul_comm my mx), (Z.add_comm ey ex), (xorb_comm sy sx).
  reflexivity.
Qed.

(** The weights as the specification writes them are the weights of
    the code: [1 - (-c)] and [1.0 + c] are the same float. *)
Lemma high_weight_qz_5z : 1 - cbs_qz_5z_low = cbs_qz_5z_high.
Proof. vm_compute. reflexivity. Qed.

Lemma high_weight_tz_qz : 1 - cbs_tz_qz_low = cbs_tz_qz_high.
Proof. vm_compute. reflexivity. Qed.
End float_facts.

(** ** Sequencing and reading *)

Lemma result_bind {A B} (m : py A) (f : A → py B) (d : dict) :
  table_after (m d) = d →
  result ((m ≫= f) d) = and_then (result (m d)) (λ a, result (f a d)).
Proof.
  unfold mbind, py_bind, result, table_after.
  destruct (m d) as [[a|e] d']; simpl; intros ->; reflexivity.
Qed.

Lemma reader_ret {A} (a : A) : reader (mret a : py A).
Proof. intros d. split; [reflexivity|]. intros k H. discriminate H. Qed.

Lemma reader_getitem (k : string) : reader (getitem k).
Proof.
  intros d. unfold getitem, result, table_after.
  destruct (d !! k) eqn:E; simpl; split; try reflexivity; intros k' H.
  - discriminate H.
  - injection H as <-. exact E.
Qed.

Lemma reader_contains (k : string) : reader (contains k).
Proof. intros d. split; [reflexivity|]. intros k' H. discriminate H. Qed.

Lemma reader_str_and (s : string) (rest : py bool) :
  reader rest → reader (str_and s rest).
Proof. intros H. unfold str_and. destruct (truthy s); [exact H | apply reader_ret]. Qed.

Lemma reader_bind {A B} (m : py A) (f : A → py B) :
  reader m → (∀ a, reader (f a)) → reader (m ≫= f).
Proof.
  intros Hm Hf d. destruct (Hm d) as [Hd Hk].
  unfold mbind, py_bind, result, table_after in *.
  destruct (m d) as [[a|e] d']; simpl in *; subst d'.
  - apply Hf.
  - split; [reflexivity|]. intros k H. apply Hk. congruence.
Qed.

Lemma reader_if {A} (b : bool) (m1 m2 : py A) :
  reader m1 → reader m2 → reader (if b then m1 else m2).
Proof. destruct b; auto. Qed.

Create HintDb reader discriminated.
#[export] Hint Resolve reader_ret reader_getitem reader_contains
  reader_str_and reader_if : reader.
#[export] Hint Extern 2 (reader (_ ≫= _)) =>
  (apply reader_bind; [|intros ?]) : reader.

Lemma reader_base_block : reader base_block.
Proof. unfold base_block. auto 10 with reader. Qed.

Lemma reader_block (g : group) (h : float) : reader (block g h).
Proof.
  destruct g; simpl;
    unfold core_block, cc_block, ci_block, anharm_block;
    auto 20 with reader.
Qed.

Lemma reader_run_blocks (gs : list group) (h : float) : reader (run_blocks gs h).
Proof.
  revert h. induction gs as [|g gs IH]; intros h; simpl.
  - apply reader_ret.
  - apply reader_bind; [apply reader_block | exact IH].
Qed.

Lemma reader_getitems (args : list string) : reader (getitems args).
Proof.
  induction args as [|k args IH]; simpl; auto 10 with reader.
Qed.

#[export] Hint Resolve reader_base_block reader_block reader_run_blocks
  reader_getitems : reader.

(** [anl0_hrxn] is its base value followed by the four blocks. *)
Lemma anl0_hrxn_blocks :
  anl0_hrxn = base_block ≫= run_blocks [Core; CC; CI; Anharm].
Proof. reflexivity. Qed.

Lemma reader_anl0_hrxn : reader anl0_hrxn.
Proof. rewrite anl0_hrxn_blocks. auto with reader. Qed.

Lemma reader_sum_Hrxn (args : list string) : reader (sum_Hrxn args).
Proof. unfold sum_Hrxn. auto 10 with reader. Qed.

(** ** What a block returns *)

Ltac py_unfold :=
  unfold base_block, core_block, cc_block, ci_block, anharm_block,
    str_and, truthy, contains, getitem, mbind, py_bind, mret, py_ret,
    result, table_after; simpl.

(** The block of [g] looks at the last key of the group only; it then
    reads the keys in the order of the docstring, and raises at the first
    one that is absent. *)
Lemma block_result (g : group) (h : float) (d : dict) :
  result (block g h d) =
    if bool_decide (is_Some (d !! last_key g)) then
      match first_absent (group_keys g) d with
      | Some k => Raises (KeyError k)
      | None => Returns (match added g d with Some c => (h + c)%float | None => h end)
      end
    else Returns h.
Proof.
  unfold added, first_absent.
  destruct g; simpl; py_unfold.
  - destruct (d !! "core_X_qz") as [x4|] eqn:E4; simpl; [|reflexivity].
    destruct (d !! "core_0_tz") as [x1|] eqn:E1; simpl; [|reflexivity].
    destruct (d !! "core_X_tz") as [x2|] eqn:E2; simpl; [|reflexivity].
    destruct (d !! "core_0_qz") as [x3|] eqn:E3; simpl; [|reflexivity].
    rewrite E4; simpl. destruct (abs _ <? 4)%float; reflexivity.
  - destruct (d !! "ccT") as [x2|] eqn:E2; simpl; [|reflexivity].
    destruct (d !! "ccQ") as [x1|] eqn:E1; simpl; [|reflexivity].
    rewrite E2; simpl. destruct (abs _ <? 4)%float; reflexivity.
  - destruct (d !! "ci_NREL") as [x2|] eqn:E2; simpl; [|reflexivity].
    destruct (d !! "ci_DK") as [x1|] eqn:E1; simpl; [|reflexivity].
    rewrite E2; simpl. destruct (abs _ <? 4)%float; reflexivity.
  - destruct (d !! "zpe_harm") as [x2|] eqn:E2; simpl; [|reflexivity].
    destruct (d !! "zpe_anharm") as [x1|] eqn:E1; simpl; [|reflexivity].
    rewrite E2; simpl. destruct (abs _ <? 4)%float; reflexivity.
Qed.

Lemma first_absent_Some (ks : list string) (d : dict) (k : string) :
  first_absent ks d = Some k → k ∈ ks ∧ d !! k = None.
Proof.
  unfold first_absent. intros H. apply find_some in H as [Hin Hk].
  split; [by apply list_elem_of_In|].
  destruct (d !! k) eqn:E; [|reflexivity].
  rewrite bool_decide_true in Hk by eauto. discriminate Hk.
Qed.

Lemma first_absent_None (ks : list string) (d : dict) :
  first_absent ks d = None ↔ ∀ k, k ∈ ks → is_Some (d !! k).
Proof.
  unfold first_absent. split.
  - intros H k Hin. apply list_elem_of_In in Hin.
    pose proof (find_none _ _ H k Hin) as Hk. simpl in Hk.
    apply negb_false_iff, bool_decide_eq_true in Hk. exact Hk.
  - intros H. destruct (find _ ks) as [k|] eqn:E; [|reflexivity].
    apply find_some in E as [Hin Hk]. apply list_elem_of_In in Hin.
    rewrite bool_decide_true in Hk by auto. discriminate Hk.
Qed.

Lemma first_absent_agree (ks : list string) (d d' : dict) :
  agree_on ks d d' → first_absent ks d = first_absent ks d'.
Proof.
  unfold first_absent. intros H. induction ks as [|k ks IH]; simpl; [reflexivity|].
  rewrite (H k) by set_solver.
  destruct (negb _); [reflexivity|]. apply IH. intros k' Hk'. apply H. set_solver.
Qed.

Lemma last_key_in_group (g : group) : last_key g ∈ group_keys g.
Proof. destruct g; simpl; set_solver. Qed.

Lemma correction_kJ_agree (g : group) (d d' : dict) :
  agree_on (group_keys g) d d' → correction_kJ g d = correction_kJ g d'.
Proof.
  intros H. destruct g; simpl in *; unfold correction_kJ;
    repeat (rewrite (H _) by set_solver); reflexivity.
Qed.

Lemma added_agree (g : group) (d d' : dict) :
  agree_on (group_keys g) d d' → added g d = added g d'.
Proof.
  intros H. unfold added.
  rewrite (H (last_key g)) by apply last_key_in_group.
  rewrite (correction_kJ_agree g d d' H). reflexivity.
Qed.

(** A block reads the keys of its group and nothing else. *)
Lemma block_agree (g : group) (h : float) (d d' : dict) :
  agree_on (group_keys g) d d' →
  result (block g h d) = result (block g h d').
Proof.
  intros H. rewrite !block_result.
  rewrite (H (last_key g)) by apply last_key_in_group.
  rewrite (first_absent_agree _ d d' H), (added_agree g d d' H). reflexivity.
Qed.

(** All the keys of the group are there exactly when the correction can
    be computed. *)
Lemma correction_kJ_is_Some (g : group) (d : dict) :
  (∀ k, k ∈ group_keys g → is_Some (d !! k)) ↔ is_Some (correction_kJ g d).
Proof.
  split.
  - intros H. destruct g; simpl in *.
    + destruct (H "core_0_tz") as [? ->]; [set_solver|].
      destruct (H "core_X_tz") as [? ->]; [set_solver|].
      destruct (H "core_0_qz") as [? ->]; [set_solver|].
      destruct (H "core_X_qz") as [? ->]; [set_solver|]. simpl. eauto.
    + destruct (H "ccQ") as [? ->]; [set_solver|].
      destruct (H "ccT") as [? ->]; [set_solver|]. simpl. eauto.
    + destruct (H "ci_DK") as [? ->]; [set_solver|].
      destruct (H "ci_NREL") as [? ->]; [set_solver|]. simpl. eauto.
    + destruct (H "zpe_anharm") as [? ->]; [set_solver|].
      destruct (H "zpe_harm") as [? ->]; [set_solver|]. simpl. eauto.
  - intros [c Hc] k Hk. destruct g; simpl in *;
      repeat match goal with
      | H : context [d !! ?x] |- _ =>
          lazymatch goal with
          | E : d !! x = _ |- _ => fail
          | _ => destruct (d !! x) eqn:?; simpl in H; [|discriminate H]
          end
      end;
      repeat (apply elem_of_cons in Hk as [->|Hk]; [eauto|]);
      by apply elem_of_nil in Hk.
Qed.

(** A block whose group is complete returns: [Hrxn] plus the correction
    when that is below 4.0 in magnitude, [Hrxn] otherwise. *)
Lemma block_full (g : group) (h c : float) (d : dict) :
  correction_kJ g d = Some c →
  result (block g h d) =
    Returns (if (abs c <? 4.0)%float then (h + c)%float else h).
Proof.
  intros Hc. rewrite block_result.
  assert (Hall : ∀ k, k ∈ group_keys g → is_Some (d !! k))
    by (apply correction_kJ_is_Some; eauto).
  rewrite (proj2 (first_absent_None _ _) Hall).
  unfold added. rewrite bool_decide_true by (apply Hall, last_key_in_group).
  rewrite Hc. simpl. destruct (abs c <? 4)%float; reflexivity.
Qed.

(** A block whose last key is absent leaves [Hrxn] as it is. *)
Lemma block_skip (g : group) (h : float) (d : dict) :
  d !! last_key g = None → result (block g h d) = Returns h.
Proof.
  intros H. rewrite block_result, H.
  rewrite bool_decide_false; [reflexivity|]. intros [? ?]; discriminate.
Qed.

(** A block whose last key is present and that misses another key
    raises, whatever [Hrxn] is. *)
Lemma block_partial (g : group) (d : dict) :
  is_Some (d !! last_key g) →
  (∃ k, k ∈ group_keys g ∧ d !! k = None) →
  ∃ k, k ∈ group_keys g ∧ d !! k = None ∧
       ∀ h, result (block g h d) = Raises (KeyError k).
Proof.
  intros Hlast (k & Hk & Hnone).
  destruct (first_absent (group_keys g) d) as [k'|] eqn:E.
  - exists k'. destruct (first_absent_Some _ _ _ E) as [? ?].
    repeat split; try assumption.
    intros h. rewrite block_result, bool_decide_true, E by assumption. reflexivity.
  - rewrite first_absent_None in E. destruct (E k Hk) as [v Hv]. congruence.
Qed.

(** ** Tables with a group taken out *)

Lemma lookup_foldr_delete (ks : list string) (d : dict) (k : string) :
  foldr delete d ks !! k = if decide (k ∈ ks) then None else d !! k.
Proof.
  induction ks as [|k' ks IH]; cbn [foldr].
  - case_decide; [set_solver | reflexivity].
  - rewrite lookup_delete, IH.
    destruct (decide (k' = k)) as [Heq|Hne].
    + rewrite decide_True by (rewrite Heq; apply list_elem_of_here). reflexivity.
    + destruct (decide (k ∈ ks)) as [Hin|Hout].
      * rewrite decide_True by (by apply list_elem_of_further). reflexivity.
      * rewrite decide_False; [reflexivity|].
        intros [?|?]%elem_of_cons; congruence.
Qed.

Lemma lookup_without_group_in (g : group) (d : dict) (k : string) :
  k ∈ group_keys g → without_group g d !! k = None.
Proof.
  intros H. unfold without_group. rewrite lookup_foldr_delete.
  rewrite decide_True by assumption. reflexivity.
Qed.

Lemma lookup_without_group_out (g : group) (d : dict) (k : string) :
  k ∉ group_keys g → without_group g d !! k = d !! k.
Proof.
  intros H. unfold without_group. rewrite lookup_foldr_delete.
  rewrite decide_False by assumption. reflexivity.
Qed.

(** No key belongs to two groups, and no required key to a group. *)
Lemma group_keys_disjoint (g g' : group) :
  g ≠ g' → Forall (λ k, k ∉ group_keys g) (group_keys g').
Proof.
  intros Hne.
  destruct g, g'; try congruence; apply (bool_decide_unpack _); vm_compute; exact I.
Qed.

Lemma required_keys_not_in_group (g : group) :
  Forall (λ k, k ∉ group_keys g) required_keys.
Proof. destruct g; apply (bool_decide_unpack _); vm_compute; exact I. Qed.

Lemma without_group_agree_other (g g' : group) (d : dict) :
  g ≠ g' → agree_on (group_keys g') (without_group g d) d.
Proof.
  intros Hne k Hk. apply lookup_without_group_out.
  pose proof (group_keys_disjoint g g' Hne) as H.
  rewrite Forall_forall in H. apply H, Hk.
Qed.

Lemma without_group_agree_required (g : group) (d : dict) :
  agree_on required_keys (without_group g d) d.
Proof.
  intros k Hk. apply lookup_without_group_out.
  pose proof (required_keys_not_in_group g) as H.
  rewrite Forall_forall in H. apply H, Hk.
Qed.

(** ** The base value *)

Lemma base_block_result (d : dict) :
  result (base_block d) =
    match first_absent required_keys d with
    | Some k => Raises (KeyError k)
    | None => match base_value d with
              | Some v => Returns v
              | None => Raises (KeyError "zpe")
              end
    end.
Proof.
  unfold first_absent, base_value. py_unfold.
  destruct (d !! "avqz") as [a|] eqn:Ea; simpl; [|reflexivity].
  destruct (d !! "av5z") as [b|] eqn:Eb; simpl; [|reflexivity].
  destruct (d !! "zpe") as [z|] eqn:Ez; simpl; reflexivity.
Qed.

Lemma base_block_agree (d d' : dict) :
  agree_on required_keys d d' →
  result (base_block d) = result (base_block d').
Proof.
  intros H. rewrite !base_block_result, (first_absent_agree _ d d' H).
  unfold base_value, required_keys in *.
  repeat (rewrite (H _) by set_solver). reflexivity.
Qed.

(** ** Runs of blocks *)

Lemma result_run_blocks_cons (g : group) (gs : list group) (h : float) (d : dict) :
  result (run_blocks (g :: gs) h d) =
    and_then (result (block g h d)) (λ h', result (run_blocks gs h' d)).
Proof. simpl. apply result_bind, reader_block. Qed.

Lemma result_run_blocks_app (gs1 gs2 : list group) (h : float) (d : dict) :
  result (run_blocks (gs1 ++ gs2)%list h d) =
    and_then (result (run_blocks gs1 h d)) (λ h', result (run_blocks gs2 h' d)).
Proof.
  revert h. induction gs1 as [|g gs1 IH]; intros h.
  - reflexivity.
  - rewrite <- app_comm_cons, !result_run_blocks_cons.
    destruct (result (block g h d)); simpl; [apply IH | reflexivity].
Qed.

Lemma run_blocks_agree (gs : list group) (h : float) (d d' : dict) :
  (∀ g, g ∈ gs → agree_on (group_keys g) d d') →
  result (run_blocks gs h d) = result (run_blocks gs h d').
Proof.
  revert h. induction gs as [|g gs IH]; intros h H.
  - reflexivity.
  - rewrite !result_run_blocks_cons, (block_agree g h d d') by (apply H; set_solver).
    destruct (result (block g h d')); simpl; [|reflexivity].
    apply IH. intros g' Hg'. apply H. set_solver.
Qed.

Lemma blocks_split (g : group) :
  [Core; CC; CI; Anharm] = (earlier g ++ g :: later g)%list.
Proof. destruct g; reflexivity. Qed.

Lemma not_in_earlier (g : group) : g ∉ earlier g.
Proof. destruct g; apply (bool_decide_unpack _); vm_compute; exact I. Qed.

Lemma not_in_later (g : group) : g ∉ later g.
Proof. destruct g; apply (bool_decide_unpack _); vm_compute; exact I. Qed.

Lemma result_before_group (g : group) (d : dict) :
  result (before_group g d) =
    and_then (result (base_block d)) (λ h, result (run_blocks (earlier g) h d)).
Proof. apply result_bind, reader_base_block. Qed.

(** The function, cut at the block of [g]. *)
Lemma anl0_hrxn_split (g : group) (d : dict) :
  result (anl0_hrxn d) =
    and_then (result (before_group g d)) (λ h,
    and_then (result (block g h d)) (λ h',
    result (after_group g h' d))).
Proof.
  rewrite anl0_hrxn_blocks, result_bind by apply reader_base_block.
  rewrite result_before_group, (blocks_split g).
  destruct (result (base_block d)) as [h|e]; simpl; [|reflexivity].
  rewrite result_run_blocks_app.
  destruct (result (run_blocks (earlier g) h d)) as [h1|e]; simpl; [|reflexivity].
  apply result_run_blocks_cons.
Qed.

Lemma before_group_without (g : group) (d : dict) :
  result (before_group g (without_group g d)) = result (before_group g d).
Proof.
  rewrite !result_before_group.
  rewrite (base_block_agree _ d) by apply without_group_agree_required.
  destruct (result (base_block d)) as [h|e]; simpl; [|reflexivity].
  apply run_blocks_agree. intros g' Hg'. apply without_group_agree_other.
  intros ->. by apply not_in_earlier in Hg'.
Qed.

Lemma after_group_without (g : group) (h : float) (d : dict) :
  result (after_group g h (without_group g d)) = result (after_group g h d).
Proof.
  apply run_blocks_agree. intros g' Hg'. apply without_group_agree_other.
  intros ->. by apply not_in_later in Hg'.
Qed.

(** On the table without the group, the function is what stands before
    the block followed by what stands after it. *)
Lemma anl0_hrxn_without_group (g : group) (d : dict) :
  result (anl0_hrxn (without_group g d)) =
    and_then (result (before_group g d)) (λ h, result (after_group g h d)).
Proof.
  rewrite (anl0_hrxn_split g), before_group_without.
  destruct (result (before_group g d)) as [h|e]; simpl; [|reflexivity].
  rewrite block_skip by apply lookup_without_group_in, last_key_in_group.
  simpl. apply after_group_without.
Qed.

Lemma result_anl0_hrxn (d : dict) :
  result (anl0_hrxn d) =
    and_then (result (base_block d)) (λ h,
      result (run_blocks [Core; CC; CI; Anharm] h d)).
Proof. rewrite anl0_hrxn_blocks. apply result_bind, reader_base_block. Qed.

(** When no block finds its last key, the function returns the base
    value. *)
Lemma run_blocks_all_skipped (gs : list group) (h : float) (d : dict) :
  (∀ g, g ∈ gs → d !! last_key g = None) →
  result (run_blocks gs h d) = Returns h.
Proof.
  induction gs as [|g gs IH]; intros H; [reflexivity|].
  rewrite result_run_blocks_cons, block_skip by (apply H, list_elem_of_here).
  simpl. apply IH. intros g' Hg'. by apply H, list_elem_of_further.
Qed.

(** ** The look-ups of [sum_Hrxn] *)

Lemma result_getitems_cons (k : string) (args : list string) (d : dict) :
  result (getitems (k :: args) d) =
    and_then (result (getitem k d)) (λ v,
    and_then (result (getitems args d)) (λ vs, Returns (v :: vs))).
Proof.
  simpl. rewrite result_bind by apply reader_getitem.
  destruct (result (getitem k d)) as [v|e]; simpl; [|reflexivity].
  rewrite result_bind by apply reader_getitems.
  destruct (result (getitems args d)); reflexivity.
Qed.

Lemma result_getitem (k : string) (d : dict) :
  result (getitem k d) =
    match d !! k with Some v => Returns v | None => Raises (KeyError k) end.
Proof. unfold getitem, result. destruct (d !! k); reflexivity. Qed.

Lemma getitems_present (args : list string) (vs : list float) (d : dict) :
  Forall2 (λ k v, d !! k = Some v) args vs →
  result (getitems args d) = Returns vs.
Proof.
  induction 1 as [|k v args vs Hk _ IH]; [reflexivity|].
  rewrite result_getitems_cons, result_getitem, Hk; simpl.
  rewrite IH. reflexivity.
Qed.

Lemma getitems_absent (args : list string) (k : string) (d : dict) :
  first_absent args d = Some k →
  result (getitems args d) = Raises (KeyError k).
Proof.
  unfold first_absent.
  induction args as [|k' args IH]; cbn [find]; [discriminate|].
  intros H. rewrite result_getitems_cons, result_getitem.
  destruct (d !! k') as [v|] eqn:E; simpl.
  - rewrite bool_decide_true in H by eauto. simpl in H.
    rewrite (IH H). reflexivity.
  - rewrite bool_decide_false in H by (intros [? ?]; discriminate).
    simpl in H. congruence.
Qed.

Lemma first_absent_exists (ks : list string) (d : dict) :
  (∃ k, k ∈ ks ∧ d !! k = None) → ∃ k, first_absent ks d = Some k.
Proof.
  intros (k & Hk & Hnone). destruct (first_absent ks d) as [k'|] eqn:E; [eauto|].
  rewrite first_absent_None in E. destruct (E k Hk) as [v Hv]. congruence.
Qed.

Lemma result_sum_Hrxn (args : list string) (d : dict) :
  result (sum_Hrxn args d) =
    and_then (result (getitems args d)) (λ vs,
      Returns (Num.py_sum vs * hartree_to_kJpermole)%float).
Proof. unfold sum_Hrxn. apply result_bind, reader_getitems. Qed.

(** * The claims *)

(** ** Required keys and errors *)

(** C4. A table that lacks one of the required keys 'avqz', 'av5z',
    'zpe' makes [anl0_hrxn] raise [KeyError] for a required key that is
    not in the table: no number is returned. *)
Theorem anl0_hrxn_missing_required (d : dict) :
  (∃ k, k ∈ required_keys ∧ d !! k = None) →
  ∃ k, k ∈ required_keys ∧ d !! k = None ∧
       result (anl0_hrxn d) = Raises (KeyError k).
Proof.
  intros H. apply first_absent_exists in H as [k Hk].
  exists k. destruct (first_absent_Some _ _ _ Hk) as [Hin Hnone].
  repeat split; try assumption.
  rewrite result_anl0_hrxn, base_block_result, Hk. reflexivity.
Qed.

(** The example of the specification: without 'av5z' the call raises
    [KeyError('av5z')]. *)
Lemma anl0_hrxn_missing_required_witness :
  result (anl0_hrxn missing_av5z) = Raises (KeyError "av5z").
Proof.
  destruct (anl0_hrxn_missing_required missing_av5z) as (k & Hin & Hnone & Hres).
  - exists "av5z". split; [|reflexivity].
    apply list_elem_of_further, list_elem_of_here.
  - rewrite Hres. unfold required_keys in Hin.
    apply elem_of_cons in Hin as [->|Hin]; [discriminate Hnone|].
    apply elem_of_cons in Hin as [->|Hin]; [reflexivity|].
    apply elem_of_cons in Hin as [->|Hin]; [discriminate Hnone|].
    by apply elem_of_nil in Hin.
Defined.

(** C6. When a key of [args] is not in the table, [sum_Hrxn] raises
    [KeyError] for a key of [args] that is absent; no partial sum is
    returned. *)
Theorem sum_Hrxn_missing_key (d : dict) (args : list string) :
  (∃ k, k ∈ args ∧ d !! k = None) →
  ∃ k, k ∈ args ∧ d !! k = None ∧
       result (sum_Hrxn args d) = Raises (KeyError k).
Proof.
  intros H. apply first_absent_exists in H as [k Hk].
  exists k. destruct (first_absent_Some _ _ _ Hk) as [Hin Hnone].
  repeat split; try assumption.
  rewrite result_sum_Hrxn, (getitems_absent _ _ _ Hk). reflexivity.
Qed.

Lemma sum_Hrxn_missing_key_witness :
  result (sum_Hrxn ["e_cc"; "zpe_corr"; "zpe"] coupled_cluster)
  = Raises (KeyError "zpe_corr").
Proof.
  destruct (sum_Hrxn_missing_key coupled_cluster ["e_cc"; "zpe_corr"; "zpe"])
    as (k & Hin & Hnone & Hres).
  - exists "zpe_corr". split; [|reflexivity].
    apply list_elem_of_further, list_elem_of_here.
  - rewrite Hres.
    apply elem_of_cons in Hin as [->|Hin]; [discriminate Hnone|].
    apply elem_of_cons in Hin as [->|Hin]; [reflexivity|].
    apply elem_of_cons in Hin as [->|Hin]; [discriminate Hnone|].
    by apply elem_of_nil in Hin.
Defined.

(** ** The summed evaluator *)

(** C5. When every key of [args] is in the table, with values [vs] in
    the order of [args], [sum_Hrxn] returns K * sum(vs) for
    K = 2625.499748; on an empty [args] it returns 0.0. *)
Theorem sum_Hrxn_value (d : dict) (args : list string) (vs : list float) :
  Forall2 (λ k v, d !! k = Some v) args vs →
  result (sum_Hrxn args d) = Returns (2625.499748 * Num.py_sum vs)%float ∧
  result (sum_Hrxn [] d) = Returns 0.0%float.
Proof.
  intros H. split.
  - rewrite result_sum_Hrxn, (getitems_present _ _ _ H). simpl.
    f_equal. apply float_mul_comm.
  - reflexivity.
Qed.

(** The scenario of the specification: the two keys 'e_cc' and 'zpe'
    give (-76.3 + 0.018) * 2625.499748. *)
Lemma sum_Hrxn_value_witness :
  result (sum_Hrxn ["e_cc"; "zpe"] coupled_cluster)
  = Returns ((-76.3 + 0.018) * 2625.499748)%float.
Proof.
  destruct (sum_Hrxn_value coupled_cluster ["e_cc"; "zpe"]
              [(-76.3)%float; 0.018%float]) as [Hres _].
  - repeat constructor.
  - rewrite Hres. reflexivity.
Defined.

(** ** Purity *)

(** C10. Both functions hand the table back as they got it, raise or
    return, and their outcome is a function of their arguments. The type
    [py] has no other effect than the table and the exception. *)
Theorem evaluators_are_pure :
  (∀ d, table_after (anl0_hrxn d) = d) ∧
  (∀ args d, table_after (sum_Hrxn args d) = d) ∧
  (∀ d d', d = d' → result (anl0_hrxn d) = result (anl0_hrxn d')) ∧
  (∀ args args' d d', args = args' → d = d' →
     result (sum_Hrxn args d) = result (sum_Hrxn args' d')).
Proof.
  repeat split.
  - intros d. apply reader_anl0_hrxn.
  - intros args d. apply reader_sum_Hrxn.
  - intros d d' ->. reflexivity.
  - intros args args' d d' -> ->. reflexivity.
Qed.

(** ** The base value *)

(** C2. On a table whose keys are exactly 'avqz', 'av5z' and 'zpe',
    [anl0_hrxn] returns ((w_low*avqz + w_high*av5z) + zpe) * K with
    w_low = -(4^3.7/(5^3.7-4^3.7)), w_high = 1 - w_low and
    K = 2625.499748. *)
Theorem anl0_hrxn_required_only (d : dict) :
  dom d = ({[ "avqz"; "av5z"; "zpe" ]} : gset string) →
  ∃ avqz av5z zpe,
    d !! "avqz" = Some avqz ∧ d !! "av5z" = Some av5z ∧ d !! "zpe" = Some zpe ∧
    let w_low := (- (Num.pow 4 3.7 / (Num.pow 5 3.7 - Num.pow 4 3.7)))%float in
    let w_high := (1 - w_low)%float in
    result (anl0_hrxn d)
    = Returns (((w_low * avqz + w_high * av5z) + zpe) * 2625.499748)%float.
Proof.
  intros Hdom.
  assert (Hin : ∀ k, k ∈ required_keys → is_Some (d !! k)).
  { intros k Hk. apply elem_of_dom. rewrite Hdom. unfold required_keys in Hk.
    repeat (apply elem_of_cons in Hk as [->|Hk]; [set_solver|]).
    by apply elem_of_nil in Hk. }
  assert (Hout : ∀ g, d !! last_key g = None).
  { intros g. apply not_elem_of_dom. rewrite Hdom.
    destruct g; apply (bool_decide_unpack _); vm_compute; exact I. }
  destruct (Hin "avqz") as [a Ha]; [apply (bool_decide_unpack _); by vm_compute|].
  destruct (Hin "av5z") as [b Hb]; [apply (bool_decide_unpack _); by vm_compute|].
  destruct (Hin "zpe") as [z Hz]; [apply (bool_decide_unpack _); by vm_compute|].
  exists a, b, z. repeat split; try assumption.
  rewrite result_anl0_hrxn, base_block_result.
  rewrite (proj2 (first_absent_None _ _) Hin).
  unfold base_value. rewrite Ha, Hb, Hz. cbn [mbind option_bind and_then].
  rewrite run_blocks_all_skipped by (intros g _; apply Hout).
  change (- (Num.pow 4 3.7 / (Num.pow 5 3.7 - Num.pow 4 3.7)))%float
    with cbs_qz_5z_low.
  rewrite high_weight_qz_5z. reflexivity.
Qed.

(** The scenario of the specification, with the weights evaluated. *)
Lemma anl0_hrxn_required_only_witness :
  ∃ avqz av5z zpe,
    water !! "avqz" = Some avqz ∧ water !! "av5z" = Some av5z ∧
    water !! "zpe" = Some zpe ∧
    let w_low := (- (Num.pow 4 3.7 / (Num.pow 5 3.7 - Num.pow 4 3.7)))%float in
    let w_high := (1 - w_low)%float in
    result (anl0_hrxn water)
    = Returns (((w_low * avqz + w_high * av5z) + zpe) * 2625.499748)%float.
Proof.
  apply (anl0_hrxn_required_only water).
  apply (bool_decide_unpack _). vm_compute. exact I.
Defined.

(** ** The guard of a correction block *)

Lemma reader_before_group (g : group) : reader (before_group g).
Proof. unfold before_group. auto with reader. Qed.

(** C9. Whether the block of a group runs depends on the last key of the
    group alone ('core_X_qz', 'ccT', 'ci_NREL', 'zpe_harm'). When the
    last key is present and another key of the group is absent, the call
    raises [KeyError] for an absent key (a key of this group when the
    code before the block returned); when the last key is absent, the
    group is skipped whatever other keys of it are present: the outcome
    is that on the table without the group. *)
Theorem group_guard_is_last_key (g : group) (d : dict) :
  last (group_keys g) = Some (last_key g) ∧
  (is_Some (d !! last_key g) →
   (∃ k, k ∈ group_keys g ∧ d !! k = None) →
   ∃ k, d !! k = None ∧
        result (anl0_hrxn d) = Raises (KeyError k) ∧
        (∀ h, result (before_group g d) = Returns h → k ∈ group_keys g)) ∧
  (d !! last_key g = None →
   result (anl0_hrxn d) = result (anl0_hrxn (without_group g d))).
Proof.
  split; [destruct g; reflexivity|]. split.
  - intros Hlast Habs. rewrite (anl0_hrxn_split g).
    destruct (result (before_group g d)) as [h|[k]] eqn:E; simpl.
    + destruct (block_partial g d Hlast Habs) as (k & Hk & Hnone & Hraise).
      exists k. rewrite Hraise. simpl. auto.
    + exists k. split; [|split; [reflexivity | intros h Hh; discriminate Hh]].
      apply (proj2 (reader_before_group g d)), E.
  - intros Hlast. rewrite anl0_hrxn_without_group, (anl0_hrxn_split g).
    destruct (result (before_group g d)) as [h|e]; simpl; [|reflexivity].
    rewrite block_skip by assumption. reflexivity.
Qed.

(** C1. The specification wants a group that lacks one of its keys to be
    skipped, as if the whole group were absent. With 'ccQ' taken out of
    a table that has 'ccQ' and 'ccT', the code raises [KeyError('ccQ')];
    with both keys taken out it returns the base value. *)
Theorem partial_group_is_not_skipped :
  result (anl0_hrxn (delete "ccQ" water_cc)) = Raises (KeyError "ccQ") ∧
  result (anl0_hrxn (without_group CC water_cc))
  = Returns (-199663.45946766087)%float.
Proof. split; vm_compute; reflexivity. Qed.

(** ** The threshold of 4 kJ/mol *)

(** A block that adds nothing and returns, returns the [Hrxn] it got,
    and does so on every [Hrxn]. *)
Lemma block_adds_nothing (g : group) (d : dict) (h v : float) :
  added g d = None →
  result (block g h d) = Returns v →
  v = h ∧ ∀ h', result (block g h' d) = Returns h'.
Proof.
  intros Hadd Hres. rewrite block_result, Hadd in Hres.
  assert (Hall : ∀ h', result (block g h' d) = Returns h').
  { intros h'. rewrite block_result, Hadd.
    destruct (bool_decide _); [|reflexivity].
    destruct (first_absent _ d); [discriminate Hres | reflexivity]. }
  split; [|exact Hall].
  destruct (bool_decide _); [|congruence].
  destruct (first_absent _ d); congruence.
Qed.

Lemma run_blocks_add_nothing (gs : list group) (d : dict) (h v : float) :
  (∀ g, g ∈ gs → added g d = None) →
  result (run_blocks gs h d) = Returns v →
  v = h ∧ ∀ h', result (run_blocks gs h' d) = Returns h'.
Proof.
  revert h. induction gs as [|g gs IH]; intros h Hadd Hres.
  - split; [simpl in Hres; congruence | reflexivity].
  - rewrite result_run_blocks_cons in Hres.
    destruct (result (block g h d)) as [h1|e] eqn:E; simpl in Hres; [|discriminate].
    destruct (block_adds_nothing g d h h1) as [-> Hg];
      [apply Hadd, list_elem_of_here | exact E |].
    destruct (IH h) as [-> Hgs];
      [intros g' Hg'; by apply Hadd, list_elem_of_further | exact Hres |].
    split; [reflexivity|]. intros h'.
    rewrite result_run_blocks_cons, Hg. simpl. apply Hgs.
Qed.

(** C3, as stated, fails on [two_corrections] for the coupled-cluster
    group: its correction is 1.312749874 kJ/mol, below 4.0; the table
    without the group gives 2.925499748, and 2.925499748 + 1.312749874 is
    4.238249622, but the call returns 4.2382496220000005: the code adds
    the correction before the anharmonicity term, and the two sums round
    differently. *)
Lemma group_correction_not_added_last :
  correction_kJ CC two_corrections = Some 1.312749874%float ∧
  (abs 1.312749874 <? 4.0)%float = true ∧
  result (anl0_hrxn (without_group CC two_corrections))
  = Returns 2.925499748%float ∧
  (2.925499748 + 1.312749874)%float = 4.238249622%float ∧
  result (anl0_hrxn two_corrections) = Returns 4.2382496220000005%float ∧
  (4.2382496220000005 =? 4.238249622)%float = false.
Proof. repeat split; vm_compute; reflexivity. Qed.

(** C3, amended. On a table with all the keys of a group, with [c] the
    correction of the group in kJ/mol: if |c| >= 4.0 the outcome is that
    on the table without the group; if |c| < 4.0 the correction is added
    to [Hrxn] where the block of the group stands, that is, the outcome
    is that of the rest of the function started from [h + c], for [h]
    the value the code before the block returns, where the table without
    the group gives the rest started from [h]. When none of the later
    groups adds a correction (always so for the anharmonicity group,
    which is the last), the result is the value without the group plus
    [c]. *)
Theorem group_threshold (g : group) (d : dict) :
  (∀ k, k ∈ group_keys g → is_Some (d !! k)) →
  ∃ c, correction_kJ g d = Some c ∧
    ((4.0 <=? abs c)%float = true →
       result (anl0_hrxn d) = result (anl0_hrxn (without_group g d))) ∧
    ((abs c <? 4.0)%float = true →
       (∀ h, result (before_group g d) = Returns h →
          result (anl0_hrxn (without_group g d)) = result (after_group g h d) ∧
          result (anl0_hrxn d) = result (after_group g (h + c)%float d)) ∧
       (∀ v, (∀ g', g' ∈ later g → added g' d = None) →
          result (anl0_hrxn (without_group g d)) = Returns v →
          result (anl0_hrxn d) = Returns (v + c)%float)).
Proof.
  intros Hall. apply correction_kJ_is_Some in Hall as [c Hc].
  exists c. split; [exact Hc|].
  pose proof (λ h, block_full g h c d Hc) as Hblock.
  split.
  - intros Hge. apply float_leb_not_ltb in Hge.
    rewrite anl0_hrxn_without_group, (anl0_hrxn_split g).
    destruct (result (before_group g d)) as [h|e]; simpl; [|reflexivity].
    rewrite Hblock, Hge. reflexivity.
  - intros Hlt. split.
    + intros h Hh. rewrite anl0_hrxn_without_group, (anl0_hrxn_split g), Hh.
      simpl. rewrite Hblock, Hlt. split; reflexivity.
    + intros v Hlater Hv. rewrite anl0_hrxn_without_group in Hv.
      rewrite (anl0_hrxn_split g).
      destruct (result (before_group g d)) as [h|e]; simpl in *; [|discriminate].
      rewrite Hblock, Hlt. simpl.
      destruct (run_blocks_add_nothing (later g) d h v Hlater Hv) as [-> Hrest].
      apply Hrest.
Qed.

(** On [two_corrections] the anharmonicity group is complete and below
    the threshold, and no block stands after it: the result is the value
    without the group, 3.9382496220000003, plus 0.3. *)
Lemma group_threshold_witness :
  result (anl0_hrxn two_corrections)
  = Returns (3.9382496220000003 + 0.3)%float.
Proof.
  destruct (group_threshold Anharm two_corrections) as (c & Hc & _ & Hlt).
  - intros k Hk.
    apply elem_of_cons in Hk as [->|Hk]; [by eexists|].
    apply elem_of_cons in Hk as [->|Hk]; [by eexists|].
    by apply elem_of_nil in Hk.
  - vm_compute in Hc. injection Hc as <-.
    destruct (Hlt eq_refl) as [_ Hlast]. apply Hlast.
    + intros g' Hg'. by apply elem_of_nil in Hg'.
    + vm_compute. reflexivity.
Defined.

(** ** The core-valence correction *)

(** C7. With the four core keys in the table and [h] the base value,
    the core-valence correction is
    w_low_tz*(core_0_tz - core_X_tz) + w_high_tz*(core_0_qz - core_X_qz)
    for w_low_tz = -(3^3.7/(4^3.7-3^3.7)) and w_high_tz = 1 - w_low_tz,
    weights that differ from those of the base value; when its magnitude
    times K is below 4.0, the block adds the correction times K to [h],
    the function goes on from that sum, and returns it when no later
    block runs. *)
Theorem core_correction_amount (d : dict) (core_0_tz core_X_tz core_0_qz core_X_qz h : float) :
  d !! "core_0_tz" = Some core_0_tz → d !! "core_X_tz" = Some core_X_tz →
  d !! "core_0_qz" = Some core_0_qz → d !! "core_X_qz" = Some core_X_qz →
  result (base_block d) = Returns h →
  let w_low_tz := (- (Num.pow 3 3.7 / (Num.pow 4 3.7 - Num.pow 3 3.7)))%float in
  let w_high_tz := (1 - w_low_tz)%float in
  let core := (w_low_tz * (core_0_tz - core_X_tz)
               + w_high_tz * (core_0_qz - core_X_qz))%float in
  (abs (core * 2625.499748) <? 4.0)%float = true →
  (w_low_tz =? - (Num.pow 4 3.7 / (Num.pow 5 3.7 - Num.pow 4 3.7)))%float = false ∧
  result (core_block h d) = Returns (h + core * 2625.499748)%float ∧
  result (anl0_hrxn d)
  = result (run_blocks [CC; CI; Anharm] (h + core * 2625.499748)%float d) ∧
  ((∀ g, g ∈ [CC; CI; Anharm] → d !! last_key g = None) →
   result (anl0_hrxn d) = Returns (h + core * 2625.499748)%float).
Proof.
  intros E1 E2 E3 E4 Hbase w_low_tz w_high_tz core Hlt.
  assert (Hc : correction_kJ Core d = Some (core * 2625.499748)%float).
  { simpl. rewrite E1, E2, E3, E4. simpl. subst core w_high_tz w_low_tz.
    change (- (Num.pow 3 3.7 / (Num.pow 4 3.7 - Num.pow 3 3.7)))%float
      with cbs_tz_qz_low.
    rewrite high_weight_tz_qz. reflexivity. }
  assert (Hblock : result (core_block h d)
                   = Returns (h + core * 2625.499748)%float).
  { change (core_block h d) with (block Core h d).
    rewrite (block_full Core h _ d Hc), Hlt. reflexivity. }
  assert (Hfun : result (anl0_hrxn d)
                 = result (run_blocks [CC; CI; Anharm]
                             (h + core * 2625.499748)%float d)).
  { rewrite result_anl0_hrxn, Hbase. cbn [and_then].
    rewrite result_run_blocks_cons. cbn [block]. rewrite Hblock. reflexivity. }
  split; [vm_compute; reflexivity|]. split; [exact Hblock|]. split; [exact Hfun|].
  intros Hlater. rewrite Hfun. by apply run_blocks_all_skipped.
Qed.

(** On [water_core] the correction is 0.0006053092933634853 Hartree,
    1.5892393971878886 kJ/mol, added to the base value. *)
Lemma core_correction_amount_witness :
  result (anl0_hrxn water_core)
  = Returns (-199663.45946766087 + 0.0006053092933634853 * 2625.499748)%float.
Proof.
  pose proof (core_correction_amount water_core 0.0011 0.0008 0.0012 0.0007
                (-199663.45946766087)%float
                eq_refl eq_refl eq_refl eq_refl eq_refl eq_refl)
    as (_ & _ & _ & Hres).
  rewrite Hres.
  - vm_compute. reflexivity.
  - intros g Hg.
    apply elem_of_cons in Hg as [->|Hg]; [reflexivity|].
    apply elem_of_cons in Hg as [->|Hg]; [reflexivity|].
    apply elem_of_cons in Hg as [->|Hg]; [reflexivity|].
    by apply elem_of_nil in Hg.
Defined.

(** ** The anharmonicity correction *)

(** C8. With 'zpe_anharm' and 'zpe_harm' in the table and [v] the value
    on the table without them, the function returns
    v + (zpe_anharm - zpe_harm) when |zpe_anharm - zpe_harm| < 4.0 and
    [v] otherwise: the difference is neither added nor compared after a
    multiplication by K. *)
Theorem anharm_correction_unscaled (d : dict) (zpe_anharm zpe_harm v : float) :
  d !! "zpe_anharm" = Some zpe_anharm → d !! "zpe_harm" = Some zpe_harm →
  result (anl0_hrxn (without_group Anharm d)) = Returns v →
  result (anl0_hrxn d)
  = Returns (if (abs (zpe_anharm - zpe_harm) <? 4.0)%float
             then (v + (zpe_anharm - zpe_harm))%float else v).
Proof.
  intros E1 E2 Hv. rewrite anl0_hrxn_without_group in Hv.
  rewrite (anl0_hrxn_split Anharm).
  destruct (result (before_group Anharm d)) as [h|e]; simpl in Hv; [|discriminate].
  injection Hv as ->. cbn [and_then].
  rewrite (block_full Anharm v (zpe_anharm - zpe_harm)%float d)
    by (simpl; rewrite E1, E2; reflexivity).
  reflexivity.
Qed.

Lemma anharm_correction_unscaled_witness :
  result (anl0_hrxn water_anharm)
  = Returns (-199663.45946766087 + 0.3999999999999986)%float ∧
  (abs (0.3999999999999986 * 2625.499748) <? 4.0)%float = false.
Proof.
  split; [|vm_compute; reflexivity].
  rewrite (anharm_correction_unscaled water_anharm 62.3 61.9
             (-199663.45946766087)%float eq_refl eq_refl eq_refl).
  vm_compute. reflexivity.
Defined.

(** ** The scenarios of the specification, evaluated *)

Example anl0_hrxn_water :
  result (anl0_hrxn water) = Returns (-199663.45946766087)%float.
Proof. vm_compute. reflexivity. Qed.

Example anl0_hrxn_missing_av5z :
  result (anl0_hrxn missing_av5z) = Raises (KeyError "av5z").
Proof. vm_compute. reflexivity. Qed.

Example sum_Hrxn_coupled_cluster :
  result (sum_Hrxn ["e_cc"; "zpe"] coupled_cluster)
  = Returns (-200278.371776936)%float.
Proof. vm_compute. reflexivity. Qed.

Example sum_Hrxn_no_key :
  result (sum_Hrxn [] coupled_cluster) = Returns 0.0%float.
Proof. vm_compute. reflexivity. Qed.

(** The last key alone decides: with 'ccT' only the call raises, with
    'ccQ' only the group is skipped. *)
Example anl0_hrxn_ccT_only :
  result (anl0_hrxn (<[ "ccT" := 0.0005%float ]> water))
  = Raises (KeyError "ccQ").
Proof. vm_compute. reflexivity. Qed.

Example anl0_hrxn_ccQ_only :
  result (anl0_hrxn (<[ "ccQ" := 0.001%float ]> water))
  = Returns (-199663.45946766087)%float.
Proof. vm_compute. reflexivity. Qed.

(** A correction of 4 kJ/mol or more is left out: 0.002 Hartree is
    5.250999496 kJ/mol. *)
Example anl0_hrxn_large_correction :
  result (anl0_hrxn (<[ "ccQ" := 0.002%float ]> (<[ "ccT" := 0.0%float ]> water)))
  = Returns (-199663.45946766087)%float.
Proof. vm_compute. reflexivity. Qed.

Example anl0_hrxn_small_correction :
  result (anl0_hrxn water_cc) = Returns (-199662.14671778688)%float.
Proof. vm_compute. reflexivity. Qed.


(** * Further properties of the two functions *)

(** ** When a block returns *)

Lemma block_returns (g : group) (h : float) (d : dict) :
  readable g d → result (block g h d) = Returns (add_correction d h g).
Proof.
  intros Hr. rewrite block_result. unfold add_correction, added.
  case_bool_decide as Hlast; [|reflexivity].
  rewrite (proj2 (first_absent_None _ _) (Hr Hlast)). reflexivity.
Qed.

Lemma block_returns_inv (g : group) (h v : float) (d : dict) :
  result (block g h d) = Returns v → readable g d.
Proof.
  rewrite block_result. intros H Hlast.
  rewrite bool_decide_true in H by assumption.
  destruct (first_absent (group_keys g) d) eqn:E; [discriminate H|].
  by apply first_absent_None.
Qed.

Lemma run_blocks_returns (gs : list group) (h : float) (d : dict) :
  (∀ g, g ∈ gs → readable g d) →
  result (run_blocks gs h d) = Returns (foldl (add_correction d) h gs).
Proof.
  revert h. induction gs as [|g gs IH]; intros h H; [reflexivity|].
  rewrite result_run_blocks_cons, block_returns by (apply H, list_elem_of_here).
  cbn [and_then foldl]. apply IH. intros g' Hg'. by apply H, list_elem_of_further.
Qed.

Lemma run_blocks_returns_inv (gs : list group) (h v : float) (d : dict) :
  result (run_blocks gs h d) = Returns v → ∀ g, g ∈ gs → readable g d.
Proof.
  revert h. induction gs as [|g gs IH]; intros h H g' Hg'.
  - by apply elem_of_nil in Hg'.
  - rewrite result_run_blocks_cons in H.
    destruct (result (block g h d)) as [h1|e] eqn:E; [|discriminate H].
    apply elem_of_cons in Hg' as [->|Hg'].
    + exact (block_returns_inv _ _ _ _ E).
    + exact (IH h1 H g' Hg').
Qed.

Lemma base_block_returns_inv (d : dict) (b : float) :
  result (base_block d) = Returns b →
  (∀ k, k ∈ required_keys → is_Some (d !! k)) ∧ base_value d = Some b.
Proof.
  rewrite base_block_result. intros H.
  destruct (first_absent required_keys d) eqn:E; [discriminate H|].
  split; [by apply first_absent_None|].
  destruct (base_value d); [congruence | discriminate H].
Qed.

Lemma base_block_returns (d : dict) :
  (∀ k, k ∈ required_keys → is_Some (d !! k)) →
  ∃ b, base_value d = Some b ∧ result (base_block d) = Returns b.
Proof.
  intros H. rewrite base_block_result, (proj2 (first_absent_None _ _) H).
  unfold base_value.
  destruct (H "avqz") as [a ->]; [apply list_elem_of_here|].
  destruct (H "av5z") as [b ->]; [apply list_elem_of_further, list_elem_of_here|].
  destruct (H "zpe") as [z ->];
    [apply list_elem_of_further, list_elem_of_further, list_elem_of_here|].
  eexists. split; reflexivity.
Qed.

(** ** When [anl0_hrxn] returns, and what *)

(** X1. [anl0_hrxn] returns a number exactly when the three required keys
    are in the table and every group whose last key is in the table has
    all its keys there; otherwise it raises. *)
Theorem anl0_hrxn_returns_iff (d : dict) :
  (∃ v, result (anl0_hrxn d) = Returns v) ↔
  (∀ k, k ∈ required_keys → is_Some (d !! k)) ∧
  (∀ g, readable g d).
Proof.
  rewrite result_anl0_hrxn. split.
  - intros [v Hv].
    destruct (result (base_block d)) as [b|e] eqn:Eb; [|discriminate Hv].
    cbn [and_then] in Hv. split.
    + exact (proj1 (base_block_returns_inv d b Eb)).
    + intros g. apply (run_blocks_returns_inv _ _ _ _ Hv).
      destruct g; apply (bool_decide_unpack _); vm_compute; exact I.
  - intros [Hreq Hgroups].
    destruct (base_block_returns d Hreq) as (b & _ & ->). cbn [and_then].
    rewrite run_blocks_returns by (intros g _; apply Hgroups). eauto.
Qed.

(** X2. When [anl0_hrxn] returns, the value is the base value
    ((cbs_qz_5z_low*avqz + cbs_qz_5z_high*av5z) + zpe) * K to which the
    corrections that pass the threshold are added one after the other,
    in the order core, cc, ci, anharm. *)
Theorem anl0_hrxn_value (d : dict) (v : float) :
  result (anl0_hrxn d) = Returns v →
  ∃ avqz av5z zpe,
    d !! "avqz" = Some avqz ∧ d !! "av5z" = Some av5z ∧ d !! "zpe" = Some zpe ∧
    v = foldl (add_correction d)
          ((cbs_qz_5z_low * avqz + cbs_qz_5z_high * av5z + zpe)
           * hartree_to_kJpermole)%float
          [Core; CC; CI; Anharm].
Proof.
  intros Hv. rewrite result_anl0_hrxn in Hv.
  destruct (result (base_block d)) as [b|e] eqn:Eb; [|discriminate Hv].
  cbn [and_then] in Hv.
  destruct (base_block_returns_inv d b Eb) as [_ Hb].
  rewrite run_blocks_returns in Hv
    by (intros g Hg; exact (run_blocks_returns_inv _ _ _ _ Hv g Hg)).
  injection Hv as <-.
  unfold base_value in Hb.
  destruct (d !! "avqz") as [a|]; [|discriminate Hb].
  destruct (d !! "av5z") as [b5|]; [|discriminate Hb].
  destruct (d !! "zpe") as [z|]; [|discriminate Hb].
  injection Hb as <-. exists a, b5, z. repeat split; reflexivity.
Qed.

(** On [two_corrections] the base value 2.625499748 gets the
    coupled-cluster correction, then the anharmonicity term. *)
Lemma anl0_hrxn_value_witness :
  ∃ avqz av5z zpe,
    two_corrections !! "avqz" = Some avqz ∧
    two_corrections !! "av5z" = Some av5z ∧
    two_corrections !! "zpe" = Some zpe ∧
    (4.2382496220000005)%float
    = foldl (add_correction two_corrections)
        ((cbs_qz_5z_low * avqz + cbs_qz_5z_high * av5z + zpe)
         * hartree_to_kJpermole)%float
        [Core; CC; CI; Anharm].
Proof.
  apply (anl0_hrxn_value two_corrections). vm_compute. reflexivity.
Defined.

(** ** What the functions read *)

Lemma group_keys_in_anl0_keys (g : group) (k : string) :
  k ∈ group_keys g → k ∈ anl0_keys.
Proof.
  intros Hk. destruct g; simpl in Hk;
    repeat (apply elem_of_cons in Hk as [->|Hk];
            [apply (bool_decide_unpack _); vm_compute; exact I|]);
    by apply elem_of_nil in Hk.
Qed.

Lemma required_keys_in_anl0_keys (k : string) :
  k ∈ required_keys → k ∈ anl0_keys.
Proof.
  intros Hk. unfold required_keys in Hk.
  repeat (apply elem_of_cons in Hk as [->|Hk];
          [apply (bool_decide_unpack _); vm_compute; exact I|]).
  by apply elem_of_nil in Hk.
Qed.

(** X3. The outcome of [anl0_hrxn] depends on the thirteen keys of its
    docstring only: two tables with the same entries at these keys give
    the same outcome, whatever other keys they hold. *)
Theorem anl0_hrxn_reads_its_keys (d d' : dict) :
  (∀ k, k ∈ anl0_keys → d !! k = d' !! k) →
  result (anl0_hrxn d) = result (anl0_hrxn d').
Proof.
  intros H. rewrite !result_anl0_hrxn.
  rewrite (base_block_agree d d')
    by (intros k Hk; apply H, required_keys_in_anl0_keys, Hk).
  destruct (result (base_block d')) as [b|e]; [|reflexivity].
  cbn [and_then]. apply run_blocks_agree.
  intros g _ k Hk. apply H, (group_keys_in_anl0_keys g), Hk.
Qed.

(** An entry under a name the function does not know changes nothing. *)
Lemma anl0_hrxn_reads_its_keys_witness :
  result (anl0_hrxn (<[ "ccsdt" := (-76.3)%float ]> water_cc))
  = result (anl0_hrxn water_cc).
Proof.
  apply anl0_hrxn_reads_its_keys. intros k Hk. unfold anl0_keys in Hk.
  repeat (apply elem_of_cons in Hk as [->|Hk]; [reflexivity|]).
  by apply elem_of_nil in Hk.
Defined.

Lemma getitems_agree (args : list string) (d d' : dict) :
  agree_on args d d' → result (getitems args d) = result (getitems args d').
Proof.
  induction args as [|k args IH]; intros H; [reflexivity|].
  rewrite !result_getitems_cons, !result_getitem.
  rewrite (H k) by apply list_elem_of_here.
  destruct (d' !! k); [|reflexivity]. cbn [and_then].
  rewrite IH; [reflexivity|]. intros k' Hk'. by apply H, list_elem_of_further.
Qed.

(** X4. The outcome of [sum_Hrxn] depends on the entries of the keys in
    [args] only. *)
Theorem sum_Hrxn_reads_its_args (args : list string) (d d' : dict) :
  (∀ k, k ∈ args → d !! k = d' !! k) →
  result (sum_Hrxn args d) = result (sum_Hrxn args d').
Proof.
  intros H. rewrite !result_sum_Hrxn, (getitems_agree args d d' H). reflexivity.
Qed.

(** Summing 'e_cc' and 'zpe' of the water table with its corrections, or
    of the plain scenario table with 'e_cc' added, is the same. *)
Lemma sum_Hrxn_reads_its_args_witness :
  result (sum_Hrxn ["e_cc"; "zpe"] (<[ "e_cc" := (-76.3)%float ]> water_cc))
  = result (sum_Hrxn ["e_cc"; "zpe"] (<[ "e_cc" := (-76.3)%float ]> water)).
Proof.
  apply sum_Hrxn_reads_its_args. intros k Hk.
  repeat (apply elem_of_cons in Hk as [->|Hk]; [reflexivity|]).
  by apply elem_of_nil in Hk.
Defined.

(** ** Which key a [KeyError] names *)

Lemma first_absent_app (pre post : list string) (k : string) (d : dict) :
  (∀ k', k' ∈ pre → is_Some (d !! k')) → d !! k = None →
  first_absent (pre ++ k :: post)%list d = Some k.
Proof.
  unfold first_absent. intros Hpre Hk.
  induction pre as [|k' pre IH]; cbn [app find].
  - rewrite Hk, bool_decide_false by (intros [? ?]; discriminate). reflexivity.
  - rewrite bool_decide_true by apply Hpre, list_elem_of_here. cbn [negb].
    apply IH. intros k'' Hk''. by apply Hpre, list_elem_of_further.
Qed.

(** X5. [sum_Hrxn] raises for the first key of [args] that is not in the
    table: when the keys before [k] are present and [k] is absent, the
    error is [KeyError(k)], whatever follows [k]. *)
Theorem sum_Hrxn_raises_first_absent (pre post : list string) (k : string) (d : dict) :
  (∀ k', k' ∈ pre → is_Some (d !! k')) →
  d !! k = None →
  result (sum_Hrxn (pre ++ k :: post)%list d) = Raises (KeyError k).
Proof.
  intros Hpre Hk.
  rewrite result_sum_Hrxn, (getitems_absent _ k) by by apply first_absent_app.
  reflexivity.
Qed.

(** Two keys are absent, the earlier one is reported. *)
Lemma sum_Hrxn_raises_first_absent_witness :
  result (sum_Hrxn ["e_cc"; "zpe_corr"; "zpe"; "thermal"] coupled_cluster)
  = Raises (KeyError "zpe_corr").
Proof.
  apply (sum_Hrxn_raises_first_absent ["e_cc"] ["zpe"; "thermal"] "zpe_corr").
  - intros k' Hk'.
    apply elem_of_cons in Hk' as [->|Hk']; [by eexists|].
    by apply elem_of_nil in Hk'.
  - reflexivity.
Defined.

(** X6. The required keys are read first, in the order 'avqz', 'av5z',
    'zpe': the first of them that is absent is the key of the
    [KeyError], whatever correction keys the table holds or lacks. *)
Theorem anl0_hrxn_required_order (d : dict) :
  (d !! "avqz" = None → result (anl0_hrxn d) = Raises (KeyError "avqz")) ∧
  (is_Some (d !! "avqz") → d !! "av5z" = None →
   result (anl0_hrxn d) = Raises (KeyError "av5z")) ∧
  (is_Some (d !! "avqz") → is_Some (d !! "av5z") → d !! "zpe" = None →
   result (anl0_hrxn d) = Raises (KeyError "zpe")).
Proof.
  rewrite result_anl0_hrxn, base_block_result. unfold first_absent, required_keys.
  cbn [find]. repeat split.
  - intros ->. reflexivity.
  - intros [a ->] ->. reflexivity.
  - intros [a ->] [b ->] ->. reflexivity.
Qed.

(** X7. A [KeyError] of [anl0_hrxn] names one of the thirteen keys of
    the docstring, and that key is not in the table. *)
Theorem anl0_hrxn_error_key (d : dict) (k : string) :
  result (anl0_hrxn d) = Raises (KeyError k) →
  k ∈ anl0_keys ∧ d !! k = None.
Proof.
  intros H. split; [|exact (proj2 (reader_anl0_hrxn d) k H)].
  rewrite result_anl0_hrxn, base_block_result in H.
  destruct (first_absent required_keys d) as [k0|] eqn:E0.
  { injection H as <-.
    apply required_keys_in_anl0_keys, (first_absent_Some _ _ _ E0). }
  destruct (base_value d) as [b|];
    [|injection H as <-; apply (bool_decide_unpack _); vm_compute; exact I].
  cbn [and_then] in H.
  assert (Hgs : ∀ gs h, result (run_blocks gs h d) = Raises (KeyError k) →
                        k ∈ anl0_keys).
  { induction gs as [|g gs IH]; intros h Hh; [discriminate Hh|].
    rewrite result_run_blocks_cons, block_result in Hh.
    destruct (bool_decide _); cbn [and_then] in Hh; [|exact (IH _ Hh)].
    destruct (first_absent (group_keys g) d) as [k1|] eqn:E1.
    - injection Hh as <-.
      apply (group_keys_in_anl0_keys g), (first_absent_Some _ _ _ E1).
    - cbn [and_then] in Hh. exact (IH _ Hh). }
  exact (Hgs _ _ H).
Qed.

Lemma anl0_hrxn_error_key_witness :
  "ccQ" ∈ anl0_keys ∧ delete "ccQ" water_cc !! "ccQ" = None.
Proof.
  apply (anl0_hrxn_error_key (delete "ccQ" water_cc) "ccQ").
  vm_compute. reflexivity.
Defined.

Lemma getitems_raises (args : list string) (k : string) (d : dict) :
  result (getitems args d) = Raises (KeyError k) → k ∈ args.
Proof.
  induction args as [|k' args IH]; intros H; [discriminate H|].
  rewrite result_getitems_cons, result_getitem in H.
  destruct (d !! k') as [v|]; cbn [and_then] in H.
  - apply list_elem_of_further, IH.
    destruct (result (getitems args d)); [discriminate H | exact H].
  - injection H as <-. apply list_elem_of_here.
Qed.

(** X8. A [KeyError] of [sum_Hrxn] names a key of [args] that is not in
    the table. *)
Theorem sum_Hrxn_error_key (args : list string) (d : dict) (k : string) :
  result (sum_Hrxn args d) = Raises (KeyError k) →
  k ∈ args ∧ d !! k = None.
Proof.
  intros H. split; [|exact (proj2 (reader_sum_Hrxn args d) k H)].
  rewrite result_sum_Hrxn in H. apply (getitems_raises args k d).
  destruct (result (getitems args d)) as [vs|e]; [discriminate H|].
  cbn [and_then] in H. injection H as ->. reflexivity.
Qed.

Lemma sum_Hrxn_error_key_witness :
  "zpe_corr" ∈ ["e_cc"; "zpe_corr"] ∧ coupled_cluster !! "zpe_corr" = None.
Proof.
  apply (sum_Hrxn_error_key ["e_cc"; "zpe_corr"] coupled_cluster "zpe_corr").
  vm_compute. reflexivity.
Defined.

(** X9. Inside a group the keys are read in the order of the docstring:
    when the code before the block returns, the last key of the group is
    in the table, the keys before [k] are present and [k] is absent, the
    call raises [KeyError(k)]. *)
Theorem group_raises_first_absent
    (g : group) (pre post : list string) (k : string) (d : dict) (h : float) :
  group_keys g = (pre ++ k :: post)%list →
  result (before_group g d) = Returns h →
  is_Some (d !! last_key g) →
  (∀ k', k' ∈ pre → is_Some (d !! k')) →
  d !! k = None →
  result (anl0_hrxn d) = Raises (KeyError k).
Proof.
  intros Hkeys Hbefore Hlast Hpre Hk.
  rewrite (anl0_hrxn_split g), Hbefore. cbn [and_then].
  rewrite block_result, bool_decide_true by assumption.
  rewrite Hkeys, (first_absent_app pre post k d Hpre Hk). reflexivity.
Qed.

(** The core group without 'core_X_tz' and 'core_0_qz': the first of the
    two is reported. *)
Lemma group_raises_first_absent_witness :
  result (anl0_hrxn (delete "core_X_tz" (delete "core_0_qz" water_core)))
  = Raises (KeyError "core_X_tz").
Proof.
  apply (group_raises_first_absent Core ["core_0_tz"] ["core_0_qz"; "core_X_qz"]
           "core_X_tz" _ (-199663.45946766087)%float).
  - reflexivity.
  - vm_compute. reflexivity.
  - by eexists.
  - intros k' Hk'.
    apply elem_of_cons in Hk' as [->|Hk']; [by eexists|].
    by apply elem_of_nil in Hk'.
  - reflexivity.
Defined.

(** ** Skipped corrections *)

Lemma anl0_hrxn_block_skipped (g : group) (d : dict) :
  (∀ h, result (block g h d) = Returns h) →
  result (anl0_hrxn d) = result (anl0_hrxn (without_group g d)).
Proof.
  intros Hskip. rewrite anl0_hrxn_without_group, (anl0_hrxn_split g).
  destruct (result (before_group g d)) as [h|e]; [|reflexivity].
  cbn [and_then]. rewrite Hskip. reflexivity.
Qed.

Lemma without_group_delete_last (g : group) (d : dict) :
  without_group g (delete (last_key g) d) = without_group g d.
Proof.
  apply map_eq. intros k. unfold without_group.
  rewrite !lookup_foldr_delete. destruct (decide (k ∈ group_keys g)) as [Hin|Hout].
  - reflexivity.
  - apply lookup_delete_ne. intros <-. apply Hout, last_key_in_group.
Qed.

(** X10. Taking the last key of a group out of the table is the same as
    taking the whole group out: the other keys of the group are then
    never read. *)
Theorem delete_last_key_skips_group (g : group) (d : dict) :
  result (anl0_hrxn (delete (last_key g) d))
  = result (anl0_hrxn (without_group g d)).
Proof.
  rewrite <- (without_group_delete_last g d).
  apply anl0_hrxn_block_skipped. intros h.
  apply block_skip, lookup_delete_eq.
Qed.

Section nan.
Local Open Scope float_scope.

(** A NaN is not below any number. *)
Lemma nan_not_below (x y : float) : is_nan x = true → (abs x <? y) = false.
Proof.
  intros H. rewrite ltb_spec, abs_spec.
  assert (Prim2SF x = SpecFloat.S754_nan) as -> by (unfold Prim2SF; rewrite H; reflexivity).
  reflexivity.
Qed.
End nan.

(** X11. A correction that is not a number (a NaN, as the difference of
    two infinite entries is) fails the test [abs(...) < 4.0] and is left
    out: the outcome is that on the table without the group. *)
Theorem nan_correction_left_out (g : group) (d : dict) (c : float) :
  correction_kJ g d = Some c →
  is_nan c = true →
  result (anl0_hrxn d) = result (anl0_hrxn (without_group g d)).
Proof.
  intros Hc Hnan. apply anl0_hrxn_block_skipped. intros h.
  rewrite (block_full g h c d Hc), (nan_not_below c 4.0 Hnan). reflexivity.
Qed.

Lemma nan_correction_left_out_witness :
  result (anl0_hrxn water_cc_infinite) = Returns (-199663.45946766087)%float.
Proof.
  rewrite (nan_correction_left_out CC water_cc_infinite nan eq_refl eq_refl).
  vm_compute. reflexivity.
Defined.
